(** * FINAI contact/loan intake server (server.js)

    A shallow embedding of the Express server of the repository: the
    [contact_data] table it keeps in [contactData.db], the three route
    handlers ([POST /submit-contact], [POST /api/submit-loan], [GET /]) and
    the top-level start-up script, followed by the properties of the intake
    API.

    Conventions of the model.
    - [req.body] is the object left by [express.json()]; the handlers only
      read own properties of it, so it is a finite map from property names
      to JSON values (a JSON array is such a map too, with index keys).
    - The SQLite file is a catalog of tables.  The columns of
      [contact_data] have TEXT affinity: a row keeps the text stored for
      each parameter the driver bound.  The one rendering that is not
      computed is SQLite's decimal rendering of a REAL that is not a 32-bit
      integer: such a column keeps the number, and a statement about its
      text takes the rendering as a parameter.
    - Whether the storage engine fails a statement (disk full, lock
      contention, corruption) is decided by the environment: every
      statement takes the fault the engine raises, if any, as an input.
    - A request is one atomic step: the handler issues at most one
      statement and answers from its callback, if the callback is ever
      called.  Start-up is one atomic step too: the script together with
      the completion of the open and of the [CREATE TABLE] it queued.
    - [express.static] (no access to the store) is left out.

    The choice of the Clerk publishable key in main.jsx is embedded as
    well. *)

From Stdlib Require Import ZArith String.
From Stdlib.Floats Require Import SpecFloat.
From stdpp Require Import gmap strings list fin_maps sorting pretty.

Local Open Scope string_scope.
Local Open Scope Z_scope.

(** ** JavaScript values *)

Module Js.

(** A value produced by [JSON.parse].  Numbers are IEEE 754 doubles. *)
#[warnings="-register-all"]
Inductive json : Type :=
  | JNull
  | JBool (b : bool)
  | JNum (x : spec_float)
  | JStr (s : string)
  | JArr (l : list json)
  | JObj (m : gmap string json).

(** The result of reading a property: [None] is [undefined]. *)
Abbreviation value := (option json).

(** The own properties of [req.body]. *)
Abbreviation body := (gmap string json).

(** ToBoolean: [undefined], [null], [false], [+0], [-0], [NaN] and [''] are
    falsy, everything else (every array and object included) is truthy. *)
Definition truthy (v : value) : bool :=
  match v with
  | None => false
  | Some JNull => false
  | Some (JBool b) => b
  | Some (JNum (S754_zero _)) => false
  | Some (JNum S754_nan) => false
  | Some (JNum _) => true
  | Some (JStr s) => negb (String.eqb s "")
  | Some (JArr _) => true
  | Some (JObj _) => true
  end.

(** The [!] operator. *)
Definition falsy (v : value) : bool := negb (truthy v).

(** The integer a double is equal to, if it is one. *)
Definition integer_of (x : spec_float) : option Z :=
  match x with
  | S754_zero _ => Some 0
  | S754_finite negative m e =>
      let magnitude :=
        if 0 <=? e then Some (Z.pos m * 2 ^ e)
        else if Z.pos m mod 2 ^ (- e) =? 0 then Some (Z.pos m / 2 ^ (- e))
        else None in
      (fun n => if negative then - n else n) <$> magnitude
  | _ => None
  end.

(** The largest magnitude up to which every integer is a double: 2^53. *)
Definition TWO_53 : Z := 9007199254740992.

(** The Number a 64-bit integer becomes: the nearest double, ties to the
    even significand (53 bits).  The result is given by its value, which
    is an integer. *)
Definition to_number (i : Z) : Z :=
  let a := Z.abs i in
  if a <? TWO_53 then i
  else
    let e := Z.log2 a - 52 in
    let q := a / 2 ^ e in
    let r := a mod 2 ^ e in
    let half := 2 ^ (e - 1) in
    let q' := if r <? half then q
              else if half <? r then q + 1
              else if Z.even q then q else q + 1 in
    Z.sgn i * (q' * 2 ^ e).

End Js.

Import Js.

(** ** The embedded store: [contactData.db] through the sqlite3 driver *)

Module Sqlite.

(** Result codes with which a statement can fail. *)
Inductive sqlite_error : Type :=
  | SQLITE_ERROR_no_such_table (tbl : string)
  | SQLITE_CONSTRAINT_NOTNULL (column : string)
  | SQLITE_FULL
  | SQLITE_MISUSE
  | SQLITE_CANTOPEN
  | SQLITE_FAULT (code : string).

(** How a statement given to [db.run] ends: its callback is called
    without or with an error, or the statement stays queued on a handle
    that never opened and its callback is never called. *)
Inductive result (A : Type) : Type :=
  | Ok (a : A)
  | Err (e : sqlite_error)
  | Queued.
Arguments Ok {A} a.
Arguments Err {A} e.
Arguments Queued {A}.

(** What a TEXT column holds: NULL, a text, or the text SQLite renders for
    a REAL, kept as the number. *)
Inductive column : Type :=
  | NULL
  | TEXT (s : string)
  | REAL (x : spec_float).

Definition is_null (c : column) : bool :=
  match c with NULL => true | _ => false end.

(** The text of a column, given SQLite's rendering of a REAL. *)
Definition text_of (real_text : spec_float -> string) (c : column) : option string :=
  match c with
  | NULL => None
  | TEXT s => Some s
  | REAL x => Some (real_text x)
  end.

(** The number as a 32-bit integer, when it is one: the driver binds such
    a number as an INTEGER and any other as a REAL. *)
Definition int32_of (x : spec_float) : option Z :=
  match integer_of x with
  | Some n => if (-2147483648 <=? n) && (n <=? 2147483647) then Some n else None
  | None => None
  end.

(** Binding of a statement parameter to a TEXT column.  [undefined] leaves
    the placeholder unbound, which SQLite reads as NULL, and [null] binds
    NULL; a string binds itself; a boolean binds the INTEGER 1 or 0 and a
    number that is a 32-bit integer binds that INTEGER, both stored as
    their decimal text; any other number binds a REAL ([NaN] is stored as
    NULL); an array or an object binds the text [[object Object]]. *)
Definition bind (p : value) : column :=
  match p with
  | None => NULL
  | Some JNull => NULL
  | Some (JStr s) => TEXT s
  | Some (JBool b) => TEXT (if b then "1" else "0")
  | Some (JNum S754_nan) => NULL
  | Some (JNum x) =>
      match int32_of x with
      | Some n => TEXT (pretty n)
      | None => REAL x
      end
  | Some (JArr _) => TEXT "[object Object]"
  | Some (JObj _) => TEXT "[object Object]"
  end.

(**
<<
  CREATE TABLE IF NOT EXISTS contact_data (
    id INTEGER PRIMARY KEY AUTOINCREMENT,
    name TEXT NOT NULL,
    email TEXT NOT NULL,
    contact TEXT,
    message TEXT NOT NULL
  )
>> *)
Record row : Type := Row {
  row_id : Z;
  row_name : column;
  row_email : column;
  row_contact : column;
  row_message : column
}.

(** A table with an AUTOINCREMENT key: its rows in insertion order and its
    entry in [sqlite_sequence], the largest rowid ever handed out. *)
Record table : Type := Table {
  rows : list row;
  sequence : Z
}.

(** The database file: the catalog of its tables. *)
Abbreviation catalog := (gmap string table).

Definition contact_data : string := "contact_data".

Definition empty_table : table := {| rows := []; sequence := 0 |}.

(** Largest rowid a 64-bit signed INTEGER PRIMARY KEY can take. *)
Definition MAX_ROWID : Z := 9223372036854775807.

(** The largest rowid among the rows, if there is a row. *)
Fixpoint last_rowid (rs : list row) : option Z :=
  match rs with
  | [] => None
  | r :: rs' =>
      Some (match last_rowid rs' with
            | Some m => Z.max (row_id r) m
            | None => row_id r
            end)
  end.

(** The same, counting an empty table as 0: the rowid before the one an
    insert without AUTOINCREMENT would take. *)
Definition max_rowid (rs : list row) : Z := default 0 (last_rowid rs).

(** AUTOINCREMENT: the largest rowid that ever existed in the table. *)
Definition high_water (t : table) : Z := Z.max (sequence t) (max_rowid (rows t)).

(** [CREATE TABLE IF NOT EXISTS contact_data (...)]. *)
Definition create_table_if_not_exists (f : catalog) : catalog :=
  match f !! contact_data with
  | Some _ => f
  | None => <[contact_data := empty_table]> f
  end.

(** [INSERT INTO contact_data (name, email, contact, message)
     VALUES (?, ?, ?, ?)] with its four parameters.  The new rowid is one
    more than the largest that ever existed; the NOT NULL columns are
    checked once the rowid is chosen. *)
Definition insert_into (name email contact message : value) (f : catalog)
  : result Z * catalog :=
  match f !! contact_data with
  | None => (Err (SQLITE_ERROR_no_such_table contact_data), f)
  | Some t =>
      if MAX_ROWID <=? high_water t then (Err SQLITE_FULL, f)
      else if is_null (bind name) then
        (Err (SQLITE_CONSTRAINT_NOTNULL "contact_data.name"), f)
      else if is_null (bind email) then
        (Err (SQLITE_CONSTRAINT_NOTNULL "contact_data.email"), f)
      else if is_null (bind message) then
        (Err (SQLITE_CONSTRAINT_NOTNULL "contact_data.message"), f)
      else
        let i := high_water t + 1 in
        let r := {| row_id := i; row_name := bind name; row_email := bind email;
                    row_contact := bind contact; row_message := bind message |} in
        (Ok i, <[contact_data := {| rows := rows t ++ [r]; sequence := i |}]> f)
  end.

(** The [sqlite3.Database] object: whether the file could be opened, and
    the contents of the file. *)
Record Database : Type := Db {
  opened : bool;
  file : catalog
}.

(** A statement run through the handle.  On a handle that never opened the
    driver keeps the statement queued and never calls back; a fault raised
    by the engine fails the statement and rolls it back. *)
Definition db_run {A : Type} (stmt : catalog -> result A * catalog)
    (io : option sqlite_error) (d : Database) : result A * Database :=
  if negb (opened d) then (Queued, d)
  else match io with
       | Some e => (Err e, d)
       | None => let '(r, f) := stmt (file d) in (r, {| opened := true; file := f |})
       end.

(** [ensureSchema()]: the [db.run(`CREATE TABLE IF NOT EXISTS ...`)] of the
    start-up script. *)
Definition ensureSchema (io : option sqlite_error) (d : Database)
  : result unit * Database :=
  db_run (fun f => (Ok tt, create_table_if_not_exists f)) io d.

(** [insert(name, email, contact, message) -> id]: the [db.run] of the
    contact handler; the value is the rowid of the new row. *)
Definition insert_contact (name email contact message : value)
    (io : option sqlite_error) (d : Database) : result Z * Database :=
  db_run (insert_into name email contact message) io d.

(** The ids of the rows of [contact_data], in insertion order. *)
Definition row_ids (f : catalog) : list Z :=
  match f !! contact_data with
  | Some t => row_id <$> rows t
  | None => []
  end.

End Sqlite.

Import Sqlite.

(** ** The Express application *)

Module Server.

(** What a handler passes to [console.log] / [console.error]. *)
Inductive log_arg : Type :=
  | ArgStr (s : string)
  | ArgBody (b : body)
  | ArgErrMessage (e : sqlite_error).

Inductive log_entry : Type :=
  | ConsoleLog (args : list log_arg)
  | ConsoleError (args : list log_arg).

(** What a handler sends: the object literal given to [res.json], or the
    text given to [res.send].  The [id] of a saved contact is a Number,
    given by its value. *)
Inductive payload : Type :=
  | ErrorJson (error : string)
  | SavedJson (message : string) (id : Z)
  | MessageJson (message : string)
  | Text (s : string).

Record response : Type := Response {
  status : Z;
  sent : payload
}.

(** The running process: the database handle [db], whether [app.listen]
    has been called, and what the script has written to the console. *)
Record server : Type := Server {
  db : Database;
  listening : bool;
  console : list log_entry
}.

Definition log (e : log_entry) (s : server) : server :=
  {| db := db s; listening := listening s; console := console s ++ [e] |}.

Definition with_db (d : Database) (s : server) : server :=
  {| db := d; listening := listening s; console := console s |}.

(** The validation of the contact handler:
    [!name || !email || !message]. *)
Definition invalid (b : body) : bool :=
  falsy (b !! "name") || falsy (b !! "email") || falsy (b !! "message").

(**
<<
  app.post('/submit-contact', (req, res) => {
    const { name, email, contact, message } = req.body;
    if (!name || !email || !message) {
      return res.status(400).json({ error: 'Name, email, and message are required.' });
    }
    db.run('INSERT INTO contact_data (name, email, contact, message) VALUES (?, ?, ?, ?)',
      [name, email, contact, message],
      function (err) {
        if (err) {
          console.error('Error inserting data into database:', err.message);
          return res.status(500).json({ error: 'Failed to save contact data.' });
        }
        res.status(200).json({ message: 'Contact data saved successfully!', id: this.lastID });
      });
  });
>>
    The response is [None] when the callback is never called: the request
    is left without an answer.  [this.lastID] is the rowid as a Number. *)
Definition submit_contact (b : body) (io : option sqlite_error) (s : server)
  : option response * server :=
  let name := b !! "name" in
  let email := b !! "email" in
  let contact := b !! "contact" in
  let message := b !! "message" in
  if falsy name || falsy email || falsy message then
    (Some {| status := 400; sent := ErrorJson "Name, email, and message are required." |}, s)
  else
    match insert_contact name email contact message io (db s) with
    | (Err err, d) =>
        (Some {| status := 500; sent := ErrorJson "Failed to save contact data." |},
         log (ConsoleError [ArgStr "Error inserting data into database:"; ArgErrMessage err])
             (with_db d s))
    | (Ok rowid, d) =>
        let lastID := to_number rowid in
        (Some {| status := 200; sent := SavedJson "Contact data saved successfully!" lastID |},
         with_db d s)
    | (Queued, d) => (None, with_db d s)
    end.

(**
<<
  app.post("/api/submit-loan", (req, res) => {
    console.log("Loan application received:", req.body);
    res.status(200).json({ message: "Loan application submitted successfully." });
  });
>> *)
Definition submit_loan (b : body) (s : server) : response * server :=
  ({| status := 200; sent := MessageJson "Loan application submitted successfully." |},
   log (ConsoleLog [ArgStr "Loan application received:"; ArgBody b]) s).

(**
<<
  app.get('/', (req, res) => { res.send('Server is running'); });
>> *)
Definition get_root (s : server) : response * server :=
  ({| status := 200; sent := Text "Server is running" |}, s).

(** The requests the three routes answer. *)
Inductive request : Type :=
  | POST_submit_contact (b : body)
  | POST_api_submit_loan (b : body)
  | GET_root.

(** One request, with the fault the storage engine raises while it is
    served, if any, and the response, if there is one. *)
Definition handle (r : request) (io : option sqlite_error) (s : server)
  : option response * server :=
  match r with
  | POST_submit_contact b => submit_contact b io s
  | POST_api_submit_loan b => let '(res, s') := submit_loan b s in (Some res, s')
  | GET_root => let '(res, s') := get_root s in (Some res, s')
  end.

(** A sequence of requests, oldest first, with the responses in the same
    order. *)
Fixpoint serve (rs : list (request * option sqlite_error)) (s : server)
  : list (option response) * server :=
  match rs with
  | [] => ([], s)
  | (r, io) :: rs' =>
      let '(res, s1) := handle r io s in
      let '(out, s2) := serve rs' s1 in
      (res :: out, s2)
  end.

(** What the environment decides at start-up: the directory of the script,
    whether the database file opens, and the fault raised on the
    [CREATE TABLE], if any. *)
Record boot : Type := Boot {
  dirname : string;
  open_error : option sqlite_error;
  create_error : option sqlite_error
}.

Definition dbPath (e : boot) : string := dirname e +:+ "/contactData.db".

(** [new sqlite3.Database(dbPath, (err) => ...)] on the file [f]. *)
Definition open_database (e : boot) (f : catalog) : Database * log_entry :=
  match open_error e with
  | Some err =>
      ({| opened := false; file := f |},
       ConsoleError [ArgStr "Error opening database:"; ArgErrMessage err])
  | None =>
      ({| opened := true; file := f |},
       ConsoleLog [ArgStr "Connected to the SQLite database at"; ArgStr (dbPath e)])
  end.

(** A process after start-up: running, or gone with an exit code, leaving
    the database file and what the script wrote to the console. *)
Inductive process : Type :=
  | Running (s : server)
  | Exited (code : Z) (f : catalog) (out : list log_entry).

(** The top level of the script, on the database file [f].  The script
    opens the database, queues the [CREATE TABLE], registers the routes and
    calls [app.listen(5000, ...)], whose callback writes the first line;
    then the open completes and its callback writes the second.  The
    [CREATE TABLE] has no callback: when it fails, the error is an
    ['error'] event nobody listens for, which ends the process with exit
    code 1; on a handle that did not open it stays queued. *)
Definition startup (e : boot) (f : catalog) : process :=
  let listen := ConsoleLog [ArgStr "Server is running on http://localhost:5000"] in
  let '(d, line) := open_database e f in
  match ensureSchema (create_error e) d with
  | (Err _, d1) => Exited 1 (file d1) [listen; line]
  | (_, d1) => Running {| db := d1; listening := true; console := [listen; line] |}
  end.

(** The database file a start-up leaves. *)
Definition file_of (p : process) : catalog :=
  match p with
  | Running s => file (db s)
  | Exited _ f _ => f
  end.

(** The states of the service: started on a new database file, after a
    request, or restarted on the file the previous process left. *)
Inductive reachable : server -> Prop :=
  | reach_start e s : startup e ∅ = Running s -> reachable s
  | reach_handle r io s : reachable s -> reachable (handle r io s).2
  | reach_restart e s s' :
      reachable s -> startup e (file (db s)) = Running s' -> reachable s'.

(** The ids of the saved-contact responses, in order. *)
Definition returned_id (r : option response) : option Z :=
  match r with
  | Some {| sent := SavedJson _ i |} => Some i
  | _ => None
  end.

Definition returned_ids (out : list (option response)) : list Z :=
  omap returned_id out.

End Server.

Import Server.

(** ** Vocabulary of the statements *)

Module Contract.

(** A required field that is missing: absent from the body, or the empty
    string. *)
Definition absent_or_empty (b : body) (k : string) : Prop :=
  b !! k = None \/ b !! k = Some (JStr "").

(** A field filled in with text. *)
Definition non_empty_text (b : body) (k : string) : Prop :=
  exists s : string, b !! k = Some (JStr s) /\ s <> "".

(** The three responses of the contact handler. *)
Definition validation_error : response :=
  {| status := 400; sent := ErrorJson "Name, email, and message are required." |}.

Definition storage_error : response :=
  {| status := 500; sent := ErrorJson "Failed to save contact data." |}.

Definition saved (id : Z) : response :=
  {| status := 200; sent := SavedJson "Contact data saved successfully!" id |}.

(** The parameters the contact handler gives to the insert. *)
Definition insert_of (b : body) (io : option sqlite_error) (d : Database)
  : result Z * Database :=
  insert_contact (b !! "name") (b !! "email") (b !! "contact") (b !! "message") io d.

(** A stored column whose text is not empty (and which is not NULL),
    given SQLite's rendering of a REAL. *)
Definition non_empty (real_text : spec_float -> string) (c : column) : Prop :=
  exists s : string, text_of real_text c = Some s /\ s <> "".

Definition record_filled (real_text : spec_float -> string) (r : row) : Prop :=
  non_empty real_text (row_name r) /\ non_empty real_text (row_email r) /\
  non_empty real_text (row_message r).

(** Every record of [contact_data], if the table exists, is filled in. *)
Definition records_filled (real_text : spec_float -> string) (f : catalog) : Prop :=
  forall t : table, f !! contact_data = Some t ->
    Forall (record_filled real_text) (rows t).

(** The largest rowid [contact_data] ever held (0 without the table). *)
Definition high_water_of (f : catalog) : Z :=
  from_option high_water 0 (f !! contact_data).


End Contract.

Import Contract.

(** ** Concrete requests and environments *)

Module Sample.

(** The submission of the specification's example. *)
Definition asha : body :=
  {[ "name" := JStr "Asha"; "email" := JStr "asha@example.com";
     "message" := JStr "Interested in a loan" ]}.

(** A submission with an empty name. *)
Definition nameless : body :=
  {[ "name" := JStr ""; "email" := JStr "a@b.com"; "message" := JStr "hi" ]}.

(** A start-up at which everything goes well. *)
Definition fair : boot :=
  {| dirname := "/srv/finai"; open_error := None; create_error := None |}.


(** A start-up at which the database file cannot be opened. *)
Definition cannot_open : boot :=
  {| dirname := "/srv/finai"; open_error := Some SQLITE_CANTOPEN;
     create_error := None |}.

(** The console after a start-up at which the database opened. *)
Definition connected : list log_entry :=
  [ConsoleLog [ArgStr "Server is running on http://localhost:5000"];
   ConsoleLog [ArgStr "Connected to the SQLite database at";
               ArgStr "/srv/finai/contactData.db"]].

(** The service started on the file [f], once it runs. *)
Definition started_on (f : catalog) : server :=
  {| db := Db true f; listening := true; console := connected |}.

(** The service freshly started on a new database file. *)
Definition fresh : server := started_on {[ contact_data := empty_table ]}.

(** The service started on a new file that could not be opened. *)
Definition unopened : server :=
  {| db := Db false ∅; listening := true;
     console := [ConsoleLog [ArgStr "Server is running on http://localhost:5000"];
                 ConsoleError [ArgStr "Error opening database:";
                               ArgErrMessage SQLITE_CANTOPEN]] |}.

(** A database file whose table holds one record, with the id [i]. *)
Definition seeded_file (i : Z) : catalog :=
  {[ contact_data :=
       {| rows := [{| row_id := i; row_name := TEXT "Old";
                      row_email := TEXT "old@example.com"; row_contact := NULL;
                      row_message := TEXT "An earlier message" |}];
          sequence := i |} ]}.

(** The service started on such a file. *)
Definition seeded (i : Z) : server := started_on (seeded_file i).

Definition disk_full : option sqlite_error := Some (SQLITE_FAULT "SQLITE_FULL").

(** A rendering of REALs that never gives the empty text, for the
    statements whose store holds no REAL. *)
Definition inf_text (x : spec_float) : string :=
  match x with
  | S754_infinity true => "-Inf"
  | _ => "Inf"
  end.

End Sample.

Import Sample.

(** ** The entry point of the front end (main.jsx) *)

Module Main.

(** The [||] operator: the left operand if it is truthy, else the right
    one. *)
Definition or_else (a b : value) : value := if truthy a then a else b.

(**
<<
  const CLERK_KEY = 'pk_test_ZW5vcm1vdXMtc2hlcGhlcmQtMTIuY2xlcmsuYWNjb3VudHMuZGV2JA';
  const clerk_key = import.meta.env.VITE_CLERK_KEY || CLERK_KEY;
>>
    [env] is [import.meta.env]; [clerk_key] is what [ClerkProvider] gets
    as [publishableKey]. *)
Definition CLERK_KEY : string :=
  "pk_test_ZW5vcm1vdXMtc2hlcGhlcmQtMTIuY2xlcmsuYWNjb3VudHMuZGV2JA".

Definition clerk_key (env : gmap string json) : value :=
  or_else (env !! "VITE_CLERK_KEY") (Some (JStr CLERK_KEY)).

End Main.

Import Main.

(** ** Further vocabulary: values, rows and console lines *)

Module Ledger.

(** The values the [!] operator takes to [true]: [undefined], [null],
    [false], the two zeros, [NaN] and the empty string. *)
Inductive falsy_value : value -> Prop :=
  | falsy_undefined : falsy_value None
  | falsy_null : falsy_value (Some JNull)
  | falsy_false : falsy_value (Some (JBool false))
  | falsy_zero (negative : bool) : falsy_value (Some (JNum (S754_zero negative)))
  | falsy_nan : falsy_value (Some (JNum S754_nan))
  | falsy_empty_string : falsy_value (Some (JStr "")).

(** The properties of the body the contact handler reads. *)
Definition contact_fields : list string := ["name"; "email"; "contact"; "message"].

(** The records of [contact_data], oldest first (none without the table). *)
Definition rows_of (f : catalog) : list row :=
  from_option rows [] (f !! contact_data).

(** How many of the requests are loan applications. *)
Definition loan_requests (rs : list (request * option sqlite_error)) : nat :=
  sum_list_with
    (fun x => match x.1 with POST_api_submit_loan _ => 1%nat | _ => 0%nat end) rs.

(** How many of the responses are the 500 of a failed insert. *)
Definition storage_failures (out : list (option response)) : nat :=
  sum_list_with
    (fun r => if bool_decide (status <$> r = Some 500) then 1%nat else 0%nat) out.

(** The answer each request gets from a service that cannot reach its
    table: the handle is open and the table is missing, or the handle
    never opened and a valid contact submission gets no answer. *)
Definition answer_without_store (handle_open : bool) (r : request) : option response :=
  match r with
  | POST_submit_contact b =>
      if invalid b then Some validation_error
      else if handle_open then Some storage_error else None
  | POST_api_submit_loan _ =>
      Some {| status := 200;
              sent := MessageJson "Loan application submitted successfully." |}
  | GET_root => Some {| status := 200; sent := Text "Server is running" |}
  end.

(** A submission whose required fields are arrays and whose contact is an
    object: no field is text. *)
Definition untyped : body :=
  {[ "name" := JArr []; "email" := JArr [JNull]; "message" := JObj ∅;
     "contact" := JObj ∅ ]}.

End Ledger.

Import Ledger.

(** * Properties *)

(** ** The store *)

Section Store.

Implicit Types (f : catalog) (d : Database) (t : table) (io : option sqlite_error).
Implicit Types (name email contact message : value).

Lemma max_rowid_ge (rs : list row) (r : row) :
  r ∈ rs -> row_id r <= max_rowid rs.
Proof.
  unfold max_rowid. induction rs as [|r' rs IH]; intros Hin.
  - by apply elem_of_nil in Hin.
  - apply elem_of_cons in Hin as [->|Hin]; simpl.
    + destruct (last_rowid rs); simpl; lia.
    + specialize (IH Hin). destruct (last_rowid rs) as [m|] eqn:E; simpl in *.
      * lia.
      * destruct rs; [by apply elem_of_nil in Hin | discriminate].
Qed.

Lemma last_rowid_snoc (rs : list row) (r : row) :
  last_rowid (rs ++ [r])
  = Some (match last_rowid rs with
          | Some m => Z.max m (row_id r)
          | None => row_id r
          end).
Proof.
  induction rs as [|a rs IH]; simpl; [done|].
  rewrite IH. f_equal. destruct (last_rowid rs); lia.
Qed.

(** The rowid an insert takes becomes the high-water mark. *)
Lemma high_water_snoc t (r : row) :
  row_id r = high_water t + 1 ->
  high_water {| rows := rows t ++ [r]; sequence := row_id r |} = row_id r.
Proof.
  unfold high_water, max_rowid. simpl. rewrite last_rowid_snoc. simpl.
  destruct (last_rowid (rows t)); simpl; lia.
Qed.

Lemma pretty_N_go_grows (x : N) (s : string) :
  (String.length s <= String.length (pretty_N_go x s))%nat.
Proof.
  revert s. induction (N.lt_wf_0 x) as [x _ IH]; intros s.
  destruct (decide (x = 0%N)) as [->|Hx]; [by rewrite pretty_N_go_0|].
  rewrite pretty_N_go_step by lia.
  etrans; [|apply IH; apply N.div_lt; lia]. simpl. lia.
Qed.

(** The decimal text of an integer is never empty. *)
Lemma pretty_Z_non_empty (n : Z) : pretty n <> "".
Proof.
  assert (forall p : positive, pretty p <> "") as Hpos.
  { intros p. unfold pretty, pretty_positive, pretty, pretty_N.
    case_decide; [done|].
    rewrite pretty_N_go_step by lia. intros Hempty.
    pose proof (pretty_N_go_grows (N.pos p `div` 10)
                  (String (pretty_N_char (N.pos p `mod` 10)) "")) as Hlen.
    rewrite Hempty in Hlen. simpl in Hlen. lia. }
  destruct n as [|p|p]; unfold pretty, pretty_Z; [done|apply Hpos|done].
Qed.

(** A truthy parameter never binds NULL: it is what the NOT NULL columns
    need. *)
Lemma truthy_bind (v : value) : truthy v = true -> is_null (bind v) = false.
Proof.
  destruct v as [[| [] | x | x | |]|]; simpl; try done.
  destruct x; simpl; try done; by case_match.
Qed.

(** The text stored for a truthy parameter is not empty, whatever the
    rendering of a REAL, provided that rendering is never empty. *)
Lemma truthy_non_empty (real_text : spec_float -> string) (v : value) :
  (forall x, real_text x <> "") ->
  truthy v = true -> non_empty real_text (bind v).
Proof.
  intros Hreal. unfold non_empty.
  destruct v as [[| [] | x | x | |]|]; simpl; try done; try by eexists.
  - intros Hx.
    destruct x; try done; simpl; try case_match; simpl;
      (eexists; split; [done|]); auto using pretty_Z_non_empty.
  - destruct (String.eqb_spec x ""); [done|]. by eexists.
Qed.

Lemma db_run_err {A} (stmt : catalog -> result A * catalog) io d e d' :
  (forall f r f', stmt f = (r, f') -> r = Err e -> f' = f) ->
  db_run stmt io d = (Err e, d') -> d' = d.
Proof.
  intros Hstmt. unfold db_run. destruct d as [[] f]; simpl; [|done].
  destruct io as [e'|]; [by intros [= _ <-]|].
  destruct (stmt f) as [r f'] eqn:E. intros [= -> <-].
  by rewrite (Hstmt _ _ _ E eq_refl).
Qed.

Lemma insert_into_err name email contact message f e f' :
  insert_into name email contact message f = (Err e, f') -> f' = f.
Proof.
  unfold insert_into. destruct (f !! contact_data) as [t|]; [|by intros [= _ <-]].
  repeat case_match; by intros [= <-] || intros [= _ <-].
Qed.

(** A failed insert leaves the handle and the file as they were. *)
Lemma insert_contact_err name email contact message io d e d' :
  insert_contact name email contact message io d = (Err e, d') -> d' = d.
Proof.
  apply db_run_err. intros f r f' E ->. by eapply insert_into_err.
Qed.

(** An insert stays queued exactly on a handle that never opened. *)
Lemma insert_contact_queued name email contact message io d d' :
  insert_contact name email contact message io d = (Queued, d') ->
  opened d = false /\ d' = d.
Proof.
  unfold insert_contact, db_run, insert_into. destruct d as [[] f]; simpl.
  - destruct io; [done|]. destruct (f !! contact_data) as [t|]; [|done].
    destruct (MAX_ROWID <=? high_water t); [done|].
    destruct (is_null (bind name)); [done|].
    destruct (is_null (bind email)); [done|].
    by destruct (is_null (bind message)).
  - by intros [= <-].
Qed.

Lemma insert_contact_unopened name email contact message io d :
  opened d = false ->
  insert_contact name email contact message io d = (Queued, d).
Proof. unfold insert_contact, db_run. by intros ->. Qed.

(** What a successful insert did. *)
Lemma insert_contact_ok name email contact message io d i d' :
  insert_contact name email contact message io d = (Ok i, d') ->
  exists t,
    opened d = true /\ io = None /\ file d !! contact_data = Some t /\
    high_water t < MAX_ROWID /\ i = high_water t + 1 /\
    is_null (bind name) = false /\ is_null (bind email) = false /\
    is_null (bind message) = false /\
    d' = {| opened := true;
            file := <[contact_data :=
                        {| rows := rows t ++
                             [{| row_id := i; row_name := bind name;
                                 row_email := bind email;
                                 row_contact := bind contact;
                                 row_message := bind message |}];
                           sequence := i |}]> (file d) |}.
Proof.
  unfold insert_contact, db_run, insert_into. intros H.
  destruct d as [[] f]; simpl in *; [|done].
  destruct io; [done|].
  destruct (f !! contact_data) as [t|]; [|done]. exists t.
  destruct (MAX_ROWID <=? high_water t) eqn:Hfull; [done|].
  apply Z.leb_gt in Hfull.
  destruct (is_null (bind name)); [done|].
  destruct (is_null (bind email)); [done|].
  destruct (is_null (bind message)); [done|].
  by injection H as <- <-.
Qed.

(** When an insert goes through: the handle is open, the table exists, the
    engine raises no fault, rowids are not exhausted and the three NOT NULL
    parameters are truthy. *)
Lemma insert_contact_succeeds name email contact message d t :
  opened d = true -> file d !! contact_data = Some t ->
  high_water t < MAX_ROWID ->
  truthy name = true -> truthy email = true -> truthy message = true ->
  exists d', insert_contact name email contact message None d
             = (Ok (high_water t + 1), d').
Proof.
  intros Ho Ht Hhw Hn%truthy_bind He%truthy_bind Hm%truthy_bind.
  unfold insert_contact, db_run, insert_into. rewrite Ho, Ht. simpl.
  destruct (MAX_ROWID <=? high_water t) eqn:Hfull; [apply Z.leb_le in Hfull; lia|].
  rewrite Hn, He, Hm. simpl. eauto.
Qed.

(** Up to 2^53 in magnitude an integer is its own Number. *)
Lemma to_number_exact (i : Z) : Z.abs i <= TWO_53 -> to_number i = i.
Proof.
  intros Hi. unfold to_number.
  destruct (Z.abs i <? TWO_53) eqn:E; [done|].
  apply Z.ltb_ge in E.
  assert (i = TWO_53 \/ i = - TWO_53) as [-> | ->] by lia; by vm_compute.
Qed.

End Store.

(** ** The contact handler *)

Section SubmitContact.

Implicit Types (b : body) (io : option sqlite_error) (s : server).

Lemma absent_or_empty_falsy b k : absent_or_empty b k -> falsy (b !! k) = true.
Proof. by intros [-> | ->]. Qed.

Lemma non_empty_text_truthy b k : non_empty_text b k -> truthy (b !! k) = true.
Proof.
  intros (x & -> & Hx). simpl. apply negb_true_iff, String.eqb_neq. done.
Qed.

Lemma submit_contact_invalid b io s :
  invalid b = true -> submit_contact b io s = (Some validation_error, s).
Proof. unfold invalid, submit_contact. by intros ->. Qed.

Lemma submit_contact_valid b io s :
  invalid b = false ->
  submit_contact b io s =
    match insert_of b io (db s) with
    | (Err err, d) =>
        (Some storage_error,
         log (ConsoleError [ArgStr "Error inserting data into database:";
                            ArgErrMessage err]) (with_db d s))
    | (Ok rowid, d) => (Some (saved (to_number rowid)), with_db d s)
    | (Queued, d) => (None, with_db d s)
    end.
Proof. unfold invalid, submit_contact. by intros ->. Qed.

Lemma invalid_false b :
  invalid b = false <->
  truthy (b !! "name") = true /\ truthy (b !! "email") = true /\
  truthy (b !! "message") = true.
Proof.
  unfold invalid, falsy.
  destruct (truthy (b !! "name")), (truthy (b !! "email")),
    (truthy (b !! "message")); simpl; intuition congruence.
Qed.

Lemma with_db_same s : with_db (db s) s = s.
Proof. by destruct s. Qed.

(** C1. A contact submission whose [name], [email] or [message] is absent
    or the empty string is answered with the 400 validation error and
    leaves the whole state, the store included, as it was; and a
    submission that only lacks [contact] is not answered with 400. *)
Theorem submit_contact_missing_field b io s :
  (absent_or_empty b "name" \/ absent_or_empty b "email" \/
   absent_or_empty b "message" ->
   submit_contact b io s = (Some validation_error, s)) /\
  (non_empty_text b "name" -> non_empty_text b "email" ->
   non_empty_text b "message" -> b !! "contact" = None ->
   forall r, (submit_contact b io s).1 = Some r -> status r <> 400).
Proof.
  split.
  - intros H. apply submit_contact_invalid. unfold invalid.
    destruct H as [H | [H | H]]; apply absent_or_empty_falsy in H; rewrite H;
      by rewrite ?orb_true_r.
  - intros Hn He Hm _ r.
    rewrite submit_contact_valid.
    + destruct (insert_of b io (db s)) as [[] ?]; by intros [= <-].
    + apply invalid_false. auto using non_empty_text_truthy.
Qed.

(** C10. Every submission the validation rejects gets one and the same
    response, status 400 with the body
    [{error: "Name, email, and message are required."}], whichever field
    is the missing one. *)
Theorem validation_error_is_fixed b io s :
  invalid b = true ->
  (submit_contact b io s).1 =
    Some {| status := 400; sent := ErrorJson "Name, email, and message are required." |}.
Proof. intros H. by rewrite submit_contact_invalid. Qed.

(** C2, as the code has it. A submission with non-empty [name], [email]
    and [message], with or without [contact], whose insert succeeds is
    answered 200 with the confirmation message and, as id, the Number
    nearest to the id the store assigned to the new row: that id itself
    whenever it is at most 2^53 in magnitude.  The assigned id is one no
    row had before, now the id of the last row, which holds the submitted
    fields. *)
Theorem submit_contact_saved b io s i d' :
  non_empty_text b "name" -> non_empty_text b "email" ->
  non_empty_text b "message" ->
  insert_of b io (db s) = (Ok i, d') ->
  submit_contact b io s =
    (Some {| status := 200;
             sent := SavedJson "Contact data saved successfully!" (to_number i) |},
     with_db d' s) /\
  (Z.abs i <= TWO_53 -> to_number i = i) /\
  (i ∉ row_ids (file (db s))) /\
  row_ids (file d') = (row_ids (file (db s)) ++ [i])%list /\
  exists t', file d' !! contact_data = Some t' /\
    last (rows t') = Some {| row_id := i; row_name := bind (b !! "name");
                             row_email := bind (b !! "email");
                             row_contact := bind (b !! "contact");
                             row_message := bind (b !! "message") |}.
Proof.
  intros Hn He Hm Hins.
  pose proof (non_empty_text_truthy _ _ Hn) as Tn.
  pose proof (non_empty_text_truthy _ _ He) as Te.
  pose proof (non_empty_text_truthy _ _ Hm) as Tm.
  split.
  { rewrite submit_contact_valid by (apply invalid_false; auto).
    by rewrite Hins. }
  split; [apply to_number_exact|].
  apply insert_contact_ok in Hins
    as (t & _ & _ & Ht & _ & Hi & _ & _ & _ & ->).
  unfold row_ids. simpl. rewrite Ht, lookup_insert_eq. simpl.
  split; [|split].
  - intros (r & Hr & Hin)%list_elem_of_fmap.
    apply max_rowid_ge in Hin. unfold high_water in Hi. lia.
  - by rewrite fmap_app.
  - eexists. split; [done|]. simpl. by rewrite last_snoc.
Qed.

Lemma submit_contact_insert_failed b io s e d' :
  invalid b = false ->
  insert_of b io (db s) = (Err e, d') ->
  submit_contact b io s =
    (Some storage_error,
     log (ConsoleError [ArgStr "Error inserting data into database:";
                        ArgErrMessage e]) s).
Proof.
  intros Hv Hins.
  assert (d' = db s) as -> by (by eapply insert_contact_err).
  by rewrite submit_contact_valid, Hins, with_db_same.
Qed.

(** The console plays no part in how a request is answered. *)
Lemma handle_after_log r io line s :
  (handle r io (log line s)).1 = (handle r io s).1.
Proof.
  destruct r as [b|b|]; simpl; [|done..].
  unfold submit_contact. simpl. case_match; [done|].
  by destruct (insert_contact _ _ _ _ _ _) as [[] ?].
Qed.

(** C4. When the insert of a submission that passed validation fails, the
    answer is the 500 storage error; the failure is written to the console
    and nothing else changes: the store holds what it held, the service
    keeps listening and answers every later request as it would have
    without the failure. *)
Theorem submit_contact_storage_error b io s e d' :
  invalid b = false ->
  insert_of b io (db s) = (Err e, d') ->
  submit_contact b io s =
    (Some {| status := 500; sent := ErrorJson "Failed to save contact data." |},
     log (ConsoleError [ArgStr "Error inserting data into database:";
                        ArgErrMessage e]) s) /\
  db (submit_contact b io s).2 = db s /\
  listening (submit_contact b io s).2 = listening s /\
  forall r io', (handle r io' (submit_contact b io s).2).1 = (handle r io' s).1.
Proof.
  intros Hv Hins.
  rewrite (submit_contact_insert_failed b io s e d' Hv Hins).
  repeat split. intros r io'. apply handle_after_log.
Qed.

End SubmitContact.

(** ** The other two routes *)

Section Stubs.

Implicit Types (b : body) (io : option sqlite_error) (s : server).

(** C8. Whatever the body, the empty one included, the loan stub answers
    200 with its fixed acknowledgment; it reads no field of the body, and
    all it does is write one line to the console: the database handle and
    the store behind it are as before. *)
Theorem submit_loan_acknowledges b io s :
  handle (POST_api_submit_loan b) io s =
    (Some {| status := 200;
             sent := MessageJson "Loan application submitted successfully." |},
     log (ConsoleLog [ArgStr "Loan application received:"; ArgBody b]) s) /\
  (handle (POST_api_submit_loan ∅) io s).1 =
    Some {| status := 200;
            sent := MessageJson "Loan application submitted successfully." |} /\
  db (handle (POST_api_submit_loan b) io s).2 = db s /\
  listening (handle (POST_api_submit_loan b) io s).2 = listening s.
Proof. done. Qed.

(** C9. [GET /] answers the fixed text [Server is running] with status
    200 in every state of the service, whatever the store holds, and
    changes nothing. *)
Theorem get_root_liveness io s :
  handle GET_root io s
  = (Some {| status := 200; sent := Text "Server is running" |}, s).
Proof. done. Qed.

End Stubs.

(** ** Identifiers *)

Section Identifiers.

Implicit Types (b : body) (io : option sqlite_error) (s : server).
Implicit Types (rs : list (request * option sqlite_error)) (f : catalog).

(** One request seen from the store: either nothing about the handle
    changes and no id is returned, or one row is appended to the table,
    its id is the next after the high-water mark, and the id returned is
    that id as a Number. *)
Lemma handle_step r io s :
  (returned_id (handle r io s).1 = None /\ db (handle r io s).2 = db s) \/
  (exists t rw,
     returned_id (handle r io s).1 = Some (to_number (row_id rw)) /\
     opened (db s) = true /\ file (db s) !! contact_data = Some t /\
     row_id rw = high_water t + 1 /\
     rw = {| row_id := row_id rw; row_name := row_name rw;
             row_email := row_email rw; row_contact := row_contact rw;
             row_message := row_message rw |} /\
     is_null (row_name rw) = false /\ is_null (row_email rw) = false /\
     is_null (row_message rw) = false /\
     db (handle r io s).2 =
       Db true (<[contact_data := {| rows := rows t ++ [rw];
                                     sequence := row_id rw |}]> (file (db s)))).
Proof.
  destruct r as [b|b|]; simpl; [|by left..].
  destruct (invalid b) eqn:Hv.
  { rewrite submit_contact_invalid by done. by left. }
  rewrite submit_contact_valid by done.
  destruct (insert_of b io (db s)) as [[i|err|] d'] eqn:Hins; simpl.
  - right.
    apply insert_contact_ok in Hins
      as (t & Ho & _ & Ht & _ & Hi & Nn & Ne & Nm & ->).
    exists t, {| row_id := i; row_name := bind (b !! "name");
                 row_email := bind (b !! "email");
                 row_contact := bind (b !! "contact");
                 row_message := bind (b !! "message") |}.
    simpl. by repeat split.
  - left. split; [done|]. by apply insert_contact_err in Hins as ->.
  - left. split; [done|]. by apply insert_contact_queued in Hins as [_ ->].
Qed.

Lemma serve_cons r io rs s :
  serve ((r, io) :: rs) s =
    ((handle r io s).1 :: (serve rs (handle r io s).2).1,
     (serve rs (handle r io s).2).2).
Proof.
  simpl. destruct (handle r io s) as [res s1]. simpl.
  by destruct (serve rs s1).
Qed.

Lemma high_water_of_bounds f (i : Z) :
  i ∈ row_ids f -> i <= high_water_of f.
Proof.
  unfold row_ids, high_water_of. destruct (f !! contact_data) as [t|]; simpl.
  - intros (r & -> & Hin)%list_elem_of_fmap.
    apply max_rowid_ge in Hin. unfold high_water. lia.
  - by intros ?%elem_of_nil.
Qed.

Lemma seqZ_sorted (m n : Z) : StronglySorted Z.lt (seqZ m n).
Proof.
  destruct (decide (n <= 0)) as [|Hn]; [rewrite seqZ_nil by done; constructor|].
  replace n with (Z.of_nat (Z.to_nat n)) by lia. clear Hn.
  generalize (Z.to_nat n). clear n. intros k. revert m.
  induction k as [|k IH]; intros m.
  - rewrite seqZ_nil by done. constructor.
  - rewrite seqZ_cons by lia. constructor.
    + replace (Z.pred (Z.of_nat (S k))) with (Z.of_nat k) by lia. apply IH.
    + apply Forall_seqZ. lia.
Qed.

(** Within 2^53 in magnitude, a run of consecutive integers is left as it
    is by the conversion to Numbers. *)
Lemma to_number_seqZ (m n : Z) :
  - TWO_53 <= m -> m + n - 1 <= TWO_53 ->
  to_number <$> seqZ m n = seqZ m n.
Proof.
  intros Hm Hn. rewrite <- (list_fmap_id (seqZ m n)) at 2.
  apply Forall_fmap_ext, Forall_seqZ. intros i Hi. unfold id.
  apply to_number_exact. lia.
Qed.

(** What a run of requests does to the table: the rows it adds, in
    response order, take the next rowids after the high-water mark without
    a gap, the mark ends on the last of them, and the ids returned are
    these rowids as Numbers. *)
Lemma serve_assigned rs s :
  exists added : list row,
    rows_of (file (db (serve rs s).2)) = (rows_of (file (db s)) ++ added)%list /\
    returned_ids (serve rs s).1 = to_number <$> (row_id <$> added) /\
    row_id <$> added
      = seqZ (high_water_of (file (db s)) + 1) (Z.of_nat (length added)) /\
    high_water_of (file (db (serve rs s).2))
      = high_water_of (file (db s)) + Z.of_nat (length added) /\
    row_ids (file (db (serve rs s).2))
      = (row_ids (file (db s)) ++ (row_id <$> added))%list.
Proof.
  revert s. induction rs as [|[r io] rs IH]; intros s.
  - exists []. simpl. rewrite !app_nil_r. repeat split; lia.
  - rewrite serve_cons. simpl.
    destruct (IH (handle r io s).2) as (added & Hrows & Hret & Hseq & Hhw & Hids).
    unfold returned_ids in *. simpl.
    destruct (handle_step r io s)
      as [[Hnone Hdb] | (t & rw & Hsome & _ & Ht & Hi & _ & _ & _ & _ & Hdb)].
    + exists added. rewrite Hnone. by rewrite Hdb in Hrows, Hseq, Hhw, Hids.
    + exists (rw :: added). rewrite Hsome. rewrite Hdb in Hrows, Hseq, Hhw, Hids.
      unfold rows_of, high_water_of, row_ids in *.
      simpl in Hrows, Hseq, Hhw, Hids.
      rewrite lookup_insert_eq in Hrows, Hseq, Hhw, Hids. rewrite Ht.
      simpl in Hrows, Hseq, Hhw, Hids.
      rewrite high_water_snoc in Hseq, Hhw by done.
      rewrite Hrows, Hret, Hhw, Hids. csimpl.
      split; [by rewrite <- app_assoc|]. split; [done|].
      split; [|split; [lia|by rewrite fmap_app, <- app_assoc]].
      rewrite seqZ_cons by lia. rewrite <- Hi. f_equal.
      rewrite Hseq. f_equal; lia.
Qed.

(** C3, as the code has it. Over any sequence of requests served by one
    process, from any state of the store, the ids the store assigns to the
    successful contact submissions are strictly increasing, none of them
    was the id of a row before, and they are exactly the ids of the rows
    added, one row for each, in the order of the responses.  The id in a
    response is the assigned id as a Number: as long as the assigned ids
    are at most 2^53 in magnitude the ids returned are the assigned ones,
    hence strictly increasing too. *)
Theorem returned_ids_strictly_increasing rs s :
  exists assigned : list Z,
    row_ids (file (db (serve rs s).2))
      = (row_ids (file (db s)) ++ assigned)%list /\
    StronglySorted Z.lt assigned /\
    Forall (fun i => i ∉ row_ids (file (db s))) assigned /\
    returned_ids (serve rs s).1 = to_number <$> assigned /\
    (Forall (fun i => Z.abs i <= TWO_53) assigned ->
     returned_ids (serve rs s).1 = assigned /\
     StronglySorted Z.lt (returned_ids (serve rs s).1)).
Proof.
  destruct (serve_assigned rs s) as (added & _ & Hret & Hseq & _ & Hids).
  exists (row_id <$> added). split; [done|].
  assert (StronglySorted Z.lt (row_id <$> added)) as Hsorted.
  { rewrite Hseq. apply seqZ_sorted. }
  split; [done|]. split; [|split; [done|]].
  - rewrite Hseq. apply Forall_seqZ.
    intros i Hi Hin%high_water_of_bounds. lia.
  - intros Hsafe.
    assert (returned_ids (serve rs s).1 = row_id <$> added) as ->; [|done].
    rewrite Hret. rewrite <- (list_fmap_id (row_id <$> added)) at 2.
    apply Forall_fmap_ext. eapply Forall_impl; [exact Hsafe|]. simpl.
    intros i Hi. unfold id. by apply to_number_exact.
Qed.

End Identifiers.

(** ** Schema creation and start-up *)

Section Schema.

Implicit Types (f : catalog) (e : boot) (s : server).

Lemma create_table_lookup f :
  create_table_if_not_exists f !! contact_data
  = Some (default empty_table (f !! contact_data)).
Proof.
  unfold create_table_if_not_exists.
  destruct (f !! contact_data) eqn:E; simpl; [done|].
  by rewrite lookup_insert_eq.
Qed.

Lemma create_table_twice f :
  create_table_if_not_exists (create_table_if_not_exists f)
  = create_table_if_not_exists f.
Proof.
  unfold create_table_if_not_exists at 1. by rewrite create_table_lookup.
Qed.

Lemma create_table_others f :
  delete contact_data (create_table_if_not_exists f) = delete contact_data f.
Proof.
  unfold create_table_if_not_exists.
  destruct (f !! contact_data) eqn:E; [done|]. by rewrite delete_insert_eq.
Qed.

(** C7. On an open handle and without a storage fault, [ensureSchema]
    run twice in a row reports no error either time and leaves exactly
    what one run leaves: the catalog has its [contact_data] table, the one
    it had (rows and sequence kept) or an empty one, and every other table
    is untouched, so the second run adds nothing. *)
Theorem ensureSchema_idempotent f :
  (ensureSchema None (Db true f)).1 = Ok tt /\
  (ensureSchema None (ensureSchema None (Db true f)).2).1 = Ok tt /\
  (ensureSchema None (ensureSchema None (Db true f)).2).2
    = (ensureSchema None (Db true f)).2 /\
  file (ensureSchema None (Db true f)).2 !! contact_data
    = Some (default empty_table (f !! contact_data)) /\
  delete contact_data (file (ensureSchema None (Db true f)).2)
    = delete contact_data f /\
  size (file (ensureSchema None (ensureSchema None (Db true f)).2).2)
    = size (file (ensureSchema None (Db true f)).2).
Proof.
  unfold ensureSchema, db_run. simpl.
  rewrite create_table_twice, create_table_lookup, create_table_others. done.
Qed.

(** The three ways a start-up can go. *)
Lemma startup_cases e f :
  (exists err, open_error e = None /\ create_error e = Some err /\
     startup e f =
       Exited 1 f [ConsoleLog [ArgStr "Server is running on http://localhost:5000"];
                   ConsoleLog [ArgStr "Connected to the SQLite database at";
                               ArgStr (dbPath e)]]) \/
  (exists err, open_error e = Some err /\
     startup e f =
       Running {| db := Db false f; listening := true;
                  console :=
                    [ConsoleLog [ArgStr "Server is running on http://localhost:5000"];
                     ConsoleError [ArgStr "Error opening database:";
                                   ArgErrMessage err]] |}) \/
  (open_error e = None /\ create_error e = None /\
   startup e f =
     Running {| db := Db true (create_table_if_not_exists f); listening := true;
                console :=
                  [ConsoleLog [ArgStr "Server is running on http://localhost:5000"];
                   ConsoleLog [ArgStr "Connected to the SQLite database at";
                               ArgStr (dbPath e)]] |}).
Proof.
  unfold startup, open_database, ensureSchema, db_run.
  destruct (open_error e) as [err|]; simpl.
  - right. left. by exists err.
  - destruct (create_error e) as [err|]; simpl.
    + left. by exists err.
    + right. by right.
Qed.

Lemma startup_file e f :
  file_of (startup e f) = f \/
  file_of (startup e f) = create_table_if_not_exists f.
Proof.
  destruct (startup_cases e f)
    as [(err & _ & _ & ->) | [(err & _ & ->) | (_ & _ & ->)]]; simpl; auto.
Qed.


End Schema.

(** ** The invariant of the stored records *)

Section Invariant.

Variable real_text : spec_float -> string.
Hypothesis real_text_non_empty : forall x, real_text x <> "".

Implicit Types (f : catalog) (s : server).

Lemma records_filled_empty : records_filled real_text ∅.
Proof. intros t Ht. by rewrite lookup_empty in Ht. Qed.

Lemma records_filled_create f :
  records_filled real_text f ->
  records_filled real_text (create_table_if_not_exists f).
Proof.
  intros Hf t. rewrite create_table_lookup. intros [= <-].
  destruct (f !! contact_data) as [t|] eqn:E; simpl; [by apply Hf|].
  constructor.
Qed.

Lemma records_filled_startup e f :
  records_filled real_text f -> records_filled real_text (file_of (startup e f)).
Proof.
  intros Hf. destruct (startup_file e f) as [-> | ->];
    auto using records_filled_create.
Qed.

Lemma records_filled_handle r io s :
  records_filled real_text (file (db s)) ->
  records_filled real_text (file (db (handle r io s).2)).
Proof.
  intros Hs. destruct r as [b|b|]; simpl; [|done..].
  destruct (invalid b) eqn:Hv.
  { by rewrite submit_contact_invalid. }
  rewrite submit_contact_valid by done.
  destruct (insert_of b io (db s)) as [[i|err|] d'] eqn:Hins; simpl.
  - apply invalid_false in Hv as (Tn & Te & Tm).
    apply insert_contact_ok in Hins
      as (t & _ & _ & Ht & _ & _ & _ & _ & _ & ->).
    intros t'. simpl. rewrite lookup_insert_eq. intros [= <-]. simpl.
    apply Forall_app. split; [by apply Hs|].
    repeat constructor; simpl; by apply truthy_non_empty.
  - by apply insert_contact_err in Hins as ->.
  - by apply insert_contact_queued in Hins as [_ ->].
Qed.

(** C6. In every state the service can reach (started on a new database
    file, after any request with any storage outcome, after any restart
    on the file left behind), every record of [contact_data] has a [name],
    an [email] and a [message] that are not NULL and whose stored text is
    not empty.  The text of a REAL is SQLite's rendering of it, of which
    only this is used: it is never the empty text. *)
Theorem stored_records_non_empty s :
  reachable s ->
  forall t : table, file (db s) !! contact_data = Some t ->
    Forall (record_filled real_text) (rows t).
Proof.
  intros Hs. change (records_filled real_text (file (db s))).
  induction Hs as [e s Hstart | r io s _ IH | e s s' _ IH Hstart].
  - change (file (db s)) with (file_of (Running s)). rewrite <- Hstart.
    apply records_filled_startup, records_filled_empty.
  - by apply records_filled_handle.
  - change (file (db s')) with (file_of (Running s')). rewrite <- Hstart.
    by apply records_filled_startup.
Qed.

End Invariant.

(** ** The statements at concrete requests *)

Section Concrete.

Example startup_fair : startup fair ∅ = Running fresh.
Proof. vm_compute. reflexivity. Qed.

Example startup_cannot_open : startup cannot_open ∅ = Running unopened.
Proof. vm_compute. reflexivity. Qed.

(** The example of the specification: on a new store the first submission
    gets id 1 and an identical second one gets id 2. *)
Example asha_twice :
  (serve [(POST_submit_contact asha, None); (POST_submit_contact asha, None)] fresh).1
  = [Some (saved 1); Some (saved 2)].
Proof. vm_compute. reflexivity. Qed.

(** The second example: an empty name is refused and no row is added. *)
Example nameless_refused :
  (submit_contact nameless None fresh).1 = Some validation_error /\
  row_ids (file (db (submit_contact nameless None fresh).2)) = [].
Proof. vm_compute. done. Qed.

Lemma submit_contact_missing_field_witness :
  submit_contact nameless None fresh = (Some validation_error, fresh) /\
  forall r, (submit_contact asha None fresh).1 = Some r -> status r <> 400.
Proof.
  split.
  - apply (proj1 (submit_contact_missing_field nameless None fresh)).
    left. right. reflexivity.
  - apply (proj2 (submit_contact_missing_field asha None fresh)).
    + exists "Asha". split; [reflexivity | discriminate].
    + exists "asha@example.com". split; [reflexivity | discriminate].
    + exists "Interested in a loan". split; [reflexivity | discriminate].
    + reflexivity.
Defined.

Lemma validation_error_is_fixed_witness :
  (submit_contact nameless disk_full fresh).1 =
    Some {| status := 400; sent := ErrorJson "Name, email, and message are required." |}.
Proof. apply (validation_error_is_fixed nameless disk_full fresh). reflexivity. Defined.

(** C2, as stated, fails: on a table whose largest id is 2^53 the store
    assigns 2^53 + 1 to the new row, and the response carries 2^53, which
    is not the id assigned and is the id of the row that was there. *)
Lemma saved_id_is_rounded :
  (insert_of asha None (db (seeded 9007199254740992))).1 = Ok 9007199254740993 /\
  (submit_contact asha None (seeded 9007199254740992)).1
    = Some {| status := 200;
              sent := SavedJson "Contact data saved successfully!" 9007199254740992 |} /\
  9007199254740992 ∈ row_ids (file (db (seeded 9007199254740992))).
Proof.
  split; [by vm_compute|]. split; [by vm_compute|].
  vm_compute. apply elem_of_cons. by left.
Qed.

Lemma submit_contact_saved_witness :
  submit_contact asha None fresh =
    (Some {| status := 200;
             sent := SavedJson "Contact data saved successfully!" (to_number 1) |},
     with_db (insert_of asha None (db fresh)).2 fresh) /\
  (Z.abs 1 <= TWO_53 -> to_number 1 = 1) /\
  (1 ∉ row_ids (file (db fresh))) /\
  row_ids (file (insert_of asha None (db fresh)).2)
    = (row_ids (file (db fresh)) ++ [1])%list /\
  exists t', file (insert_of asha None (db fresh)).2 !! contact_data = Some t' /\
    last (rows t') = Some {| row_id := 1; row_name := bind (asha !! "name");
                             row_email := bind (asha !! "email");
                             row_contact := bind (asha !! "contact");
                             row_message := bind (asha !! "message") |}.
Proof.
  apply (submit_contact_saved asha None fresh 1 (insert_of asha None (db fresh)).2).
  - exists "Asha". split; [reflexivity | discriminate].
  - exists "asha@example.com". split; [reflexivity | discriminate].
  - exists "Interested in a loan". split; [reflexivity | discriminate].
  - vm_compute. reflexivity.
Defined.

(** C3, as stated, fails: on a table whose largest id is 2^54 two
    successive submissions are both saved and both answered with the id
    2^54, and a third with 2^54 + 4; the rows have the ids 2^54 + 1,
    2^54 + 2 and 2^54 + 3. *)
Lemma returned_ids_repeat :
  (serve [(POST_submit_contact asha, None); (POST_submit_contact asha, None);
          (POST_submit_contact asha, None)] (seeded 18014398509481984)).1
    = [Some (saved 18014398509481984); Some (saved 18014398509481984);
       Some (saved 18014398509481988)] /\
  row_ids (file (db
    (serve [(POST_submit_contact asha, None); (POST_submit_contact asha, None);
            (POST_submit_contact asha, None)] (seeded 18014398509481984)).2))
    = [18014398509481984; 18014398509481985; 18014398509481986;
       18014398509481987] /\
  ~ StronglySorted Z.lt
      (returned_ids
         (serve [(POST_submit_contact asha, None); (POST_submit_contact asha, None);
                 (POST_submit_contact asha, None)] (seeded 18014398509481984)).1).
Proof.
  split; [by vm_compute|]. split; [by vm_compute|].
  vm_compute. intros H. inversion H as [|? ? _ Hlt]; subst.
  inversion Hlt as [|? ? Hhd _]; subst. vm_compute in Hhd. discriminate.
Qed.

Lemma returned_ids_strictly_increasing_witness :
  exists assigned : list Z,
    row_ids (file (db
      (serve [(POST_submit_contact asha, None); (POST_submit_contact asha, None)]
         fresh).2)) = (row_ids (file (db fresh)) ++ assigned)%list /\
    StronglySorted Z.lt assigned /\
    Forall (fun i => i ∉ row_ids (file (db fresh))) assigned /\
    returned_ids
      (serve [(POST_submit_contact asha, None); (POST_submit_contact asha, None)]
         fresh).1 = to_number <$> assigned /\
    (Forall (fun i => Z.abs i <= TWO_53) assigned ->
     returned_ids
       (serve [(POST_submit_contact asha, None); (POST_submit_contact asha, None)]
          fresh).1 = assigned /\
     StronglySorted Z.lt
       (returned_ids
          (serve [(POST_submit_contact asha, None); (POST_submit_contact asha, None)]
             fresh).1)).
Proof.
  apply (returned_ids_strictly_increasing
           [(POST_submit_contact asha, None); (POST_submit_contact asha, None)] fresh).
Defined.

Lemma submit_contact_storage_error_witness :
  submit_contact asha disk_full fresh =
    (Some {| status := 500; sent := ErrorJson "Failed to save contact data." |},
     log (ConsoleError [ArgStr "Error inserting data into database:";
                        ArgErrMessage (SQLITE_FAULT "SQLITE_FULL")]) fresh) /\
  db (submit_contact asha disk_full fresh).2 = db fresh /\
  listening (submit_contact asha disk_full fresh).2 = listening fresh /\
  forall r io', (handle r io' (submit_contact asha disk_full fresh).2).1
                = (handle r io' fresh).1.
Proof.
  apply (submit_contact_storage_error asha disk_full fresh
           (SQLITE_FAULT "SQLITE_FULL") (db fresh)).
  - reflexivity.
  - vm_compute. reflexivity.
Defined.



Lemma stored_records_non_empty_witness :
  reachable (handle (POST_submit_contact asha) None fresh).2 /\
  Forall (record_filled inf_text)
    [{| row_id := 1; row_name := TEXT "Asha";
        row_email := TEXT "asha@example.com";
        row_contact := NULL;
        row_message := TEXT "Interested in a loan" |}].
Proof.
  assert (reachable (handle (POST_submit_contact asha) None fresh).2) as Hr.
  { apply reach_handle, (reach_start fair). apply startup_fair. }
  split; [exact Hr|].
  apply (stored_records_non_empty inf_text) with
    (s := (handle (POST_submit_contact asha) None fresh).2)
    (t := {| rows := _; sequence := 1 |}).
  - intros x. destruct x as [| [] | |]; discriminate.
  - exact Hr.
  - vm_compute. reflexivity.
Defined.

End Concrete.

(** * Further properties of the server *)

(** ** What the validation lets through *)

Section Validation.

Implicit Types (b : body) (io : option sqlite_error) (s : server) (v : value).

Lemma falsy_iff v : falsy v = true <-> falsy_value v.
Proof.
  unfold falsy. split.
  - destruct v as [[| [] | [] | x | |]|]; simpl; try discriminate;
      try constructor.
    destruct (String.eqb_spec x ""); [subst; constructor | discriminate].
  - by destruct 1.
Qed.

(** Among the requests, the contact handler answers 400 exactly to those
    whose [name], [email] or [message] is a falsy value: missing, [null],
    [false], a zero, [NaN] or the empty string. *)
Theorem submit_contact_rejects_iff b io s :
  status <$> (submit_contact b io s).1 = Some 400 <->
  falsy_value (b !! "name") \/ falsy_value (b !! "email") \/
  falsy_value (b !! "message").
Proof.
  rewrite <- !falsy_iff. destruct (invalid b) eqn:Hv.
  - rewrite submit_contact_invalid by done. split; [intros _|done].
    unfold invalid in Hv.
    apply orb_true_iff in Hv as [Hv|Hv]; [|by auto].
    apply orb_true_iff in Hv as [Hv|Hv]; auto.
  - rewrite submit_contact_valid by done. split.
    + by destruct (insert_of b io (db s)) as [[] ?].
    + unfold invalid in Hv.
      apply orb_false_iff in Hv as [[Hn He]%orb_false_iff Hm].
      intros [H | [H | H]]; congruence.
Qed.

(** A property of the body that the handler does not read (anything but
    [name], [email], [contact] and [message]) changes nothing: with it set
    to any value, or removed, the response and the resulting state are the
    same. *)
Theorem submit_contact_ignores_other_fields b k (x : json) io s :
  k ∉ contact_fields ->
  submit_contact (<[k := x]> b) io s = submit_contact b io s /\
  submit_contact (delete k b) io s = submit_contact b io s.
Proof.
  intros Hk. unfold contact_fields in Hk.
  rewrite !not_elem_of_cons in Hk. destruct Hk as (Hn & He & Hc & Hm & _).
  unfold submit_contact.
  by rewrite !lookup_insert_ne, !lookup_delete_ne.
Qed.

Lemma insert_contact_any_contact (name email c c' message : value) io d :
  (insert_contact name email c message io d).1
    = (insert_contact name email c' message io d).1 /\
  row_ids (file (insert_contact name email c message io d).2)
    = row_ids (file (insert_contact name email c' message io d).2).
Proof.
  unfold insert_contact, db_run, insert_into.
  destruct d as [[] f]; simpl; [|done]. destruct io; [done|].
  destruct (f !! contact_data) as [t|] eqn:Ht; [|done].
  destruct (MAX_ROWID <=? high_water t); [done|].
  destruct (is_null (bind name)); [done|].
  destruct (is_null (bind email)); [done|].
  destruct (is_null (bind message)); [done|].
  unfold row_ids. simpl. rewrite !lookup_insert_eq. simpl.
  by rewrite !fmap_app.
Qed.

(** The value of [contact] plays no part in the outcome: whatever it is,
    and whether it is there at all, the response (status, message, id) is
    the same and the same row ids are in the table afterwards. *)
Theorem contact_never_matters b (x : json) io s :
  (submit_contact (<["contact" := x]> b) io s).1
    = (submit_contact (delete "contact" b) io s).1 /\
  (submit_contact b io s).1 = (submit_contact (delete "contact" b) io s).1 /\
  row_ids (file (db (submit_contact b io s).2))
    = row_ids (file (db (submit_contact (delete "contact" b) io s).2)).
Proof.
  assert (forall b', b' !! "name" = b !! "name" -> b' !! "email" = b !! "email" ->
            b' !! "message" = b !! "message" ->
            (submit_contact b' io s).1 = (submit_contact b io s).1 /\
            row_ids (file (db (submit_contact b' io s).2))
              = row_ids (file (db (submit_contact b io s).2))) as Hsame.
  { intros b' Hn He Hm. unfold submit_contact. rewrite Hn, He, Hm.
    case_match; [done|].
    destruct (insert_contact_any_contact (b !! "name") (b !! "email")
                (b' !! "contact") (b !! "contact") (b !! "message") io (db s))
      as [Hres Hids].
    destruct (insert_contact _ _ (b' !! "contact") _ _ _) as [r1 d1],
      (insert_contact _ _ (b !! "contact") _ _ _) as [r2 d2].
    simpl in Hres, Hids. subst r2. by destruct r1. }
  destruct (Hsame (<["contact" := x]> b)) as [H1 _];
    [by rewrite lookup_insert_ne..|].
  destruct (Hsame (delete "contact" b)) as [H2 H3];
    [by rewrite lookup_delete_ne..|].
  rewrite H1, H2, H3. done.
Qed.

(** A submission that passed the validation never trips a NOT NULL
    constraint of the table: when the engine raises no fault, the insert
    can only fail for a missing table or exhausted rowids. *)
Theorem validated_insert_meets_not_null b d e :
  invalid b = false ->
  (insert_of b None d).1 = Err e ->
  e = SQLITE_ERROR_no_such_table contact_data \/ e = SQLITE_FULL.
Proof.
  intros (Tn & Te & Tm)%invalid_false.
  apply truthy_bind in Tn, Te, Tm.
  unfold insert_of, insert_contact, db_run, insert_into.
  destruct d as [[] f]; simpl; [|done].
  destruct (f !! contact_data) as [t|]; simpl; [|intros [= <-]; auto].
  destruct (MAX_ROWID <=? high_water t); simpl; [intros [= <-]; auto|].
  by rewrite Tn, Te, Tm.
Qed.

End Validation.

(** ** What a run of requests does to the store *)

Section Runs.

Implicit Types (b : body) (io : option sqlite_error) (s : server).
Implicit Types (rs : list (request * option sqlite_error)) (f : catalog).

Lemma handle_listening r io s : listening (handle r io s).2 = listening s.
Proof.
  destruct r as [b|b|]; simpl; try done.
  unfold submit_contact. case_match; [done|].
  by destruct (insert_contact _ _ _ _ _ _) as [[] ?].
Qed.

(** Requests only ever append to [contact_data]: after any run, the rows
    that were there are still there, unchanged and in the same order,
    followed by one row for each id returned, in the order of the
    responses; the id returned is the id of the row, as a Number. *)
Theorem serve_appends_rows rs s :
  exists added : list row,
    rows_of (file (db (serve rs s).2)) = (rows_of (file (db s)) ++ added)%list /\
    returned_ids (serve rs s).1 = to_number <$> (row_id <$> added).
Proof.
  destruct (serve_assigned rs s) as (added & Hrows & Hret & _). eauto.
Qed.

(** Requests touch nothing but the rows of [contact_data]: after any run
    the other tables of the file are as they were, the table is there
    exactly if it was there before, the handle is open exactly if it was,
    and the service is listening exactly if it was. *)
Theorem serve_keeps_the_rest rs s :
  delete contact_data (file (db (serve rs s).2))
    = delete contact_data (file (db s)) /\
  (is_Some (file (db (serve rs s).2) !! contact_data)
     <-> is_Some (file (db s) !! contact_data)) /\
  opened (db (serve rs s).2) = opened (db s) /\
  listening (serve rs s).2 = listening s.
Proof.
  revert s. induction rs as [|[r io] rs IH]; intros s; [done|].
  rewrite serve_cons. simpl.
  destruct (IH (handle r io s).2) as (-> & -> & -> & ->).
  rewrite handle_listening.
  destruct (handle_step r io s)
    as [[_ ->] | (t & rw & _ & Ho & Ht & _ & _ & _ & _ & _ & ->)]; [done|].
  simpl. rewrite delete_insert_eq, lookup_insert_eq, Ht, Ho. done.
Qed.

(** Rowids are handed out without gaps: over any run the rows added take
    consecutive ids starting right after the largest id the table ever
    held, however many rejected or failed requests lie in between, and the
    ids returned are these as Numbers: the very same integers while they
    stay within 2^53.  On a new database file they start at 1. *)
Theorem returned_ids_consecutive rs s :
  returned_ids (serve rs s).1
    = to_number <$> seqZ (high_water_of (file (db s)) + 1)
                         (Z.of_nat (length (returned_ids (serve rs s).1))) /\
  (- TWO_53 <= high_water_of (file (db s)) + 1 ->
   high_water_of (file (db (serve rs s).2)) <= TWO_53 ->
   returned_ids (serve rs s).1
     = seqZ (high_water_of (file (db s)) + 1)
            (Z.of_nat (length (returned_ids (serve rs s).1)))) /\
  (forall e, startup e ∅ = Running s -> high_water_of (file (db s)) = 0).
Proof.
  destruct (serve_assigned rs s) as (added & _ & Hret & Hseq & Hhw & _).
  assert (length (returned_ids (serve rs s).1) = length added) as Hlen.
  { by rewrite Hret, !length_fmap. }
  rewrite Hlen. split; [by rewrite Hret, Hseq|]. split.
  - intros Hlo Hhi. rewrite Hret, Hseq. apply to_number_seqZ; lia.
  - intros e He.
    destruct (startup_cases e ∅)
      as [(err & _ & _ & H) | [(err & _ & H) | (_ & _ & H)]];
      rewrite H in He; by simplify_eq.
Qed.

Lemma startup_high_water e f :
  high_water_of (file_of (startup e f)) = high_water_of f.
Proof.
  destruct (startup_file e f) as [-> | ->]; [done|].
  unfold high_water_of. rewrite create_table_lookup.
  by destruct (f !! contact_data).
Qed.

(** Starting the service never changes what is stored: on any database
    file and whatever the outcome of the start-up, the records, the
    largest id ever held and the other tables are as the file had them. *)
Theorem startup_keeps_records e f :
  rows_of (file_of (startup e f)) = rows_of f /\
  high_water_of (file_of (startup e f)) = high_water_of f /\
  delete contact_data (file_of (startup e f)) = delete contact_data f.
Proof.
  split; [|split; [apply startup_high_water|]].
  - destruct (startup_file e f) as [-> | ->]; [done|].
    unfold rows_of. rewrite create_table_lookup.
    by destruct (f !! contact_data).
  - destruct (startup_file e f) as [-> | ->]; [done|].
    apply create_table_others.
Qed.

(** Rowids are not reused after a restart: the ids returned by one
    process, followed by those returned by the process restarted on the
    file it left, are the Numbers of one run of consecutive rowids; while
    these stay within 2^53 the ids returned are strictly increasing. *)
Theorem returned_ids_increase_across_restart rs1 rs2 e s s' :
  startup e (file (db (serve rs1 s).2)) = Running s' ->
  (returned_ids (serve rs1 s).1 ++ returned_ids (serve rs2 s').1)%list
    = to_number <$>
        seqZ (high_water_of (file (db s)) + 1)
             (Z.of_nat (length (returned_ids (serve rs1 s).1)
                        + length (returned_ids (serve rs2 s').1))) /\
  (- TWO_53 <= high_water_of (file (db s)) + 1 ->
   high_water_of (file (db (serve rs2 s').2)) <= TWO_53 ->
   StronglySorted Z.lt
     (returned_ids (serve rs1 s).1 ++ returned_ids (serve rs2 s').1)).
Proof.
  intros Hstart.
  destruct (serve_assigned rs1 s) as (a1 & _ & Hret1 & Hseq1 & Hhw1 & _).
  destruct (serve_assigned rs2 s') as (a2 & _ & Hret2 & Hseq2 & Hhw2 & _).
  pose proof (startup_high_water e (file (db (serve rs1 s).2))) as Hsame.
  rewrite Hstart in Hsame. simpl in Hsame.
  rewrite Hsame, Hhw1 in Hseq2, Hhw2.
  assert ((returned_ids (serve rs1 s).1 ++ returned_ids (serve rs2 s').1)%list
          = to_number <$>
              seqZ (high_water_of (file (db s)) + 1)
                   (Z.of_nat (length a1 + length a2))) as Hall.
  { rewrite Hret1, Hret2, Hseq1, Hseq2, <- fmap_app. f_equal.
    rewrite Nat2Z.inj_add, seqZ_app by lia. do 2 f_equal. lia. }
  rewrite Hret1, Hret2, !length_fmap, <- Hret1, <- Hret2.
  split; [done|]. intros Hlo Hhi. rewrite Hall.
  rewrite to_number_seqZ by lia. apply seqZ_sorted.
Qed.

End Runs.

(** ** A service without its table, the console, and a good start *)

Section Outage.

Implicit Types (b : body) (io : option sqlite_error) (s : server).
Implicit Types (rs : list (request * option sqlite_error)) (f : catalog).

Lemma handle_without_store r io s :
  opened (db s) = false \/ file (db s) !! contact_data = None ->
  (handle r io s).1 = answer_without_store (opened (db s)) r /\
  db (handle r io s).2 = db s.
Proof.
  intros Hs. destruct r as [b|b|]; simpl; [|done..].
  destruct (invalid b) eqn:Hv.
  { by rewrite submit_contact_invalid. }
  rewrite submit_contact_valid by done.
  destruct (insert_of b io (db s)) as [[i|err|] d'] eqn:Hins.
  - apply insert_contact_ok in Hins as (t & Ho & _ & Ht & _).
    destruct Hs; congruence.
  - assert (opened (db s) = true) as ->.
    { destruct (opened (db s)) eqn:Ho; [done|].
      unfold insert_of in Hins.
      by rewrite insert_contact_unopened in Hins. }
    by apply insert_contact_err in Hins as ->.
  - by apply insert_contact_queued in Hins as [-> ->].
Qed.

(** Nothing a request does opens the database or creates the table.  If
    the handle never opened, every contact submission that passes
    validation is left without an answer; if the handle is open and the
    file has no [contact_data] table, every such submission is answered
    with the 500 storage error.  Either way, over any run, the other
    requests are answered as usual, no id is ever returned, and handle and
    file stay as they are. *)
Theorem serve_without_store rs s :
  opened (db s) = false \/ file (db s) !! contact_data = None ->
  (serve rs s).1 = (fun x => answer_without_store (opened (db s)) x.1) <$> rs /\
  returned_ids (serve rs s).1 = [] /\
  db (serve rs s).2 = db s.
Proof.
  revert s. induction rs as [|[r io] rs IH]; intros s Hs; [done|].
  rewrite serve_cons. simpl.
  destruct (handle_without_store r io s Hs) as [Hres Hdb].
  destruct (IH (handle r io s).2) as (Hout & Hids & Hdb');
    [by rewrite Hdb|].
  rewrite Hdb', Hdb. split; [by rewrite Hres, Hout, Hdb|]. split; [|done].
  unfold returned_ids in *. simpl. rewrite Hids, Hres.
  destruct r as [b|b|]; simpl; [|done..].
  destruct (invalid b); [done|]. by destruct (opened (db s)).
Qed.

Lemma handle_console r io s :
  exists lines : list log_entry,
    console (handle r io s).2 = (console s ++ lines)%list /\
    length lines =
      ((match r with POST_api_submit_loan _ => 1%nat | _ => 0%nat end) +
       (if bool_decide (status <$> (handle r io s).1 = Some 500%Z)
        then 1%nat else 0%nat))%nat.
Proof.
  destruct r as [b|b|]; simpl.
  - destruct (invalid b) eqn:Hv.
    { rewrite submit_contact_invalid by done. exists []. simpl.
      by rewrite app_nil_r. }
    rewrite submit_contact_valid by done.
    destruct (insert_of b io (db s)) as [[i|err|] d']; simpl.
    + exists []. by rewrite app_nil_r.
    + by eexists [_].
    + exists []. by rewrite app_nil_r.
  - by eexists [_].
  - exists []. by rewrite app_nil_r.
Qed.

(** The console only grows, and by exactly one line for each loan
    application and one for each failed insert: a contact submission that
    is rejected or saved, and [GET /], write nothing. *)
Theorem console_accounting rs s :
  exists lines : list log_entry,
    console (serve rs s).2 = (console s ++ lines)%list /\
    length lines = (loan_requests rs + storage_failures (serve rs s).1)%nat.
Proof.
  revert s. induction rs as [|[r io] rs IH]; intros s.
  - exists []. simpl. by rewrite app_nil_r.
  - rewrite serve_cons. simpl.
    destruct (handle_console r io s) as (l1 & Hc1 & Hn1).
    destruct (IH (handle r io s).2) as (l2 & Hc2 & Hn2).
    exists (l1 ++ l2)%list. rewrite Hc2, Hc1, <- app_assoc. split; [done|].
    rewrite length_app, Hn1, Hn2. unfold loan_requests, storage_failures.
    simpl. lia.
Qed.

(** After a start-up at which the database opened and the table creation
    raised no fault, the service runs, and a contact submission that
    passes validation and meets no storage fault is saved: the row gets
    the id after the largest the file ever held (provided rowids are not
    exhausted) and the response carries that id as a Number. *)
Theorem started_service_saves e f b :
  open_error e = None -> create_error e = None ->
  invalid b = false -> high_water_of f < MAX_ROWID ->
  exists s, startup e f = Running s /\
    (submit_contact b None s).1 = Some (saved (to_number (high_water_of f + 1))) /\
    row_ids (file (db (submit_contact b None s).2))
      = (row_ids f ++ [high_water_of f + 1])%list.
Proof.
  intros Ho Hc Hv Hhw.
  apply invalid_false in Hv as Hv'. destruct Hv' as (Tn & Te & Tm).
  destruct (startup_cases e f)
    as [(err & _ & Hc' & _) | [(err & Ho' & _) | (_ & _ & ->)]];
    [congruence..|].
  eexists. split; [done|].
  pose proof (create_table_lookup f) as Ht.
  assert (high_water (default empty_table (f !! contact_data))
          = high_water_of f) as Hw.
  { unfold high_water_of. by destruct (f !! contact_data). }
  destruct (insert_contact_succeeds (b !! "name") (b !! "email")
              (b !! "contact") (b !! "message")
              (Db true (create_table_if_not_exists f)) _ eq_refl Ht)
    as [d' Hins]; [lia | done..|].
  rewrite submit_contact_valid by done.
  unfold insert_of. simpl. rewrite Hins, Hw. simpl. split; [done|].
  apply insert_contact_ok in Hins as (t & _ & _ & Ht' & _ & _ & _ & _ & _ & ->).
  simpl in Ht'. rewrite Ht in Ht'. injection Ht' as <-.
  unfold row_ids. simpl. rewrite lookup_insert_eq. simpl.
  rewrite fmap_app, Hw. simpl. by destruct (f !! contact_data).
Qed.

End Outage.

(** * The entry point of the front end *)

Section ClerkKey.

(** The publishable key handed to [ClerkProvider] is never missing or
    empty: it is the value of [VITE_CLERK_KEY] when that is set to a truthy
    value, and the built-in test key when the variable is unset, empty or
    otherwise falsy. *)
Theorem clerk_key_never_blank (env : gmap string json) :
  truthy (clerk_key env) = true /\
  (falsy_value (env !! "VITE_CLERK_KEY") -> clerk_key env = Some (JStr CLERK_KEY)) /\
  (~ falsy_value (env !! "VITE_CLERK_KEY") -> clerk_key env = env !! "VITE_CLERK_KEY").
Proof.
  unfold clerk_key, or_else.
  destruct (truthy (env !! "VITE_CLERK_KEY")) eqn:Ht.
  - split; [done|]. split; [|done].
    intros Hf%falsy_iff. unfold falsy in Hf. by rewrite Ht in Hf.
  - split; [done|]. split; [done|].
    intros Hf. exfalso. apply Hf, falsy_iff. unfold falsy. by rewrite Ht.
Qed.

End ClerkKey.

(** * The further properties at concrete requests *)

Section ConcreteRuns.

(** No field of [untyped] is text, yet it passes the validation: arrays
    and objects are truthy, and are stored as the text [[object Object]]. *)
Example untyped_passes_validation :
  (submit_contact untyped None fresh).1 = Some (saved 1) /\
  rows_of (file (db (submit_contact untyped None fresh).2))
    = [{| row_id := 1; row_name := TEXT "[object Object]";
          row_email := TEXT "[object Object]";
          row_contact := TEXT "[object Object]";
          row_message := TEXT "[object Object]" |}].
Proof. vm_compute. done. Qed.

(** The table by itself would take an empty name: it is the validation,
    not the NOT NULL constraint, that refuses it. *)
Example not_null_accepts_empty_string :
  (insert_contact (Some (JStr "")) (Some (JStr "a@b.com")) None
     (Some (JStr "hi")) None (db fresh)).1 = Ok 1.
Proof. vm_compute. reflexivity. Qed.

Lemma submit_contact_ignores_other_fields_witness :
  submit_contact (<["phone" := JStr "555"]> asha) None fresh
    = submit_contact asha None fresh /\
  submit_contact (delete "phone" asha) None fresh = submit_contact asha None fresh.
Proof.
  apply (submit_contact_ignores_other_fields asha "phone" (JStr "555") None fresh).
  unfold contact_fields. rewrite !not_elem_of_cons.
  repeat split; try discriminate. apply not_elem_of_nil.
Defined.

Lemma validated_insert_meets_not_null_witness :
  SQLITE_ERROR_no_such_table contact_data
    = SQLITE_ERROR_no_such_table contact_data \/
  SQLITE_ERROR_no_such_table contact_data = SQLITE_FULL.
Proof.
  apply (validated_insert_meets_not_null asha (Db true ∅)).
  - reflexivity.
  - vm_compute. reflexivity.
Defined.

Lemma returned_ids_increase_across_restart_witness :
  (returned_ids (serve [(POST_submit_contact asha, None)] fresh).1 ++
   returned_ids
     (serve [(POST_submit_contact asha, disk_full); (POST_submit_contact asha, None)]
        (started_on (file (db (serve [(POST_submit_contact asha, None)] fresh).2)))).1)%list
  = [1; 2].
Proof.
  destruct (returned_ids_increase_across_restart
              [(POST_submit_contact asha, None)]
              [(POST_submit_contact asha, disk_full); (POST_submit_contact asha, None)]
              fair fresh
              (started_on (file (db (serve [(POST_submit_contact asha, None)] fresh).2))))
    as [Hall _].
  - vm_compute. reflexivity.
  - rewrite Hall. vm_compute. reflexivity.
Defined.

Lemma serve_without_store_witness :
  (serve [(POST_submit_contact asha, None); (GET_root, None);
          (POST_submit_contact nameless, None)] unopened).1
    = [None; Some {| status := 200; sent := Text "Server is running" |};
       Some validation_error] /\
  returned_ids
    (serve [(POST_submit_contact asha, None); (GET_root, None);
            (POST_submit_contact nameless, None)] unopened).1 = [] /\
  db (serve [(POST_submit_contact asha, None); (GET_root, None);
             (POST_submit_contact nameless, None)] unopened).2
    = db unopened.
Proof.
  apply (serve_without_store
           [(POST_submit_contact asha, None); (GET_root, None);
            (POST_submit_contact nameless, None)] unopened).
  left. reflexivity.
Defined.

Lemma started_service_saves_witness :
  exists s, startup fair ∅ = Running s /\
    (submit_contact asha None s).1 = Some (saved (to_number (high_water_of ∅ + 1))) /\
    row_ids (file (db (submit_contact asha None s).2))
      = (row_ids ∅ ++ [high_water_of ∅ + 1])%list.
Proof.
  apply (started_service_saves fair ∅ asha); try reflexivity.
Defined.

End ConcreteRuns.
